(** * esp-wifi-logger: the log-transport pipeline of [wifi_logger.c]

    A shallow embedding of the queue discipline, the formatter, the
    interception hook and the dispatch loop of [wifi_logger.c], with the
    properties of the pipeline stated and proved over it.

    Conventions of the embedding.
    - A [char*] is an address in [Z]; [NULL] is [0].  The heap maps every
      live [malloc]'d block to the C string it holds (the bytes before the
      terminator).
    - A call either returns, aborts ([configASSERT] / [abort()]), or has
      undefined behaviour (a store through [NULL], a store past the end of
      a fixed buffer, a [free] of a pointer that is not a live block): the
      three constructors of [outcome].
    - Everything the program does to the outside is appended to a trace:
      allocations, releases, transport sends, console output and the
      logger's own [ESP_LOGx] lines.  Those lines are events on the local
      log output; the model does not feed them back into the hook.
    - [wifi_logger] is a [while (true)] loop; [wifi_logger n] is its first
      [n] iterations. *)

From Stdlib Require Import ZArith String Ascii List DecimalString Lia.
From stdpp Require Import gmap strings list.

Local Open Scope string_scope.
Local Open Scope list_scope.
Local Open Scope Z_scope.

(** ** C strings and the [printf] family *)

Module Printf.

(** One argument of a variadic call: a C string, an [int] or [unsigned]
    given by its value, or a character. *)
Inductive arg : Type :=
| ArgStr (s : string)
| ArgInt (z : Z)
| ArgChar (c : ascii).

(** Decimal rendering of an [int] ([%d]). *)
Definition dec (z : Z) : string := NilZero.string_of_int (Z.to_int z).

(** The text [vsprintf]/[vprintf] produce for a format and its arguments.
    The plain conversions [%s], [%d], [%i], [%u], [%c] and [%%] are
    modelled, which covers the formats the logger itself uses.  [None]
    stands for a call the model gives no text for: a missing or ill-typed
    argument (undefined in C), a trailing [%], or a conversion outside the
    subset. *)
Fixpoint vformat (fmt : string) (args : list arg) : option string :=
  match fmt with
  | EmptyString => Some EmptyString
  | String "%" EmptyString => None
  | String "%" (String c rest) =>
      if Ascii.eqb c "%" then
        option_map (String "%") (vformat rest args)
      else if Ascii.eqb c "s" then
        match args with
        | ArgStr s :: args' => option_map (String.append s) (vformat rest args')
        | _ => None
        end
      else if Ascii.eqb c "d" || Ascii.eqb c "i" then
        match args with
        | ArgInt z :: args' => option_map (String.append (dec z)) (vformat rest args')
        | _ => None
        end
      else if Ascii.eqb c "u" then
        match args with
        | ArgInt z :: args' =>
            option_map (String.append (dec (z mod 2 ^ 32))) (vformat rest args')
        | _ => None
        end
      else if Ascii.eqb c "c" then
        match args with
        | ArgChar a :: args' => option_map (String a) (vformat rest args')
        | _ => None
        end
      else None
  | String a rest => option_map (String a) (vformat rest args)
  end.

(** [strlen]. *)
Definition strlen (s : string) : Z := Z.of_nat (String.length s).

End Printf.

Import Printf.

(** ** Program state and outcomes *)

(** [esp_log_level_t] of the platform's log library. *)
Inductive esp_log_level_t : Type :=
| ESP_LOG_NONE
| ESP_LOG_ERROR
| ESP_LOG_WARN
| ESP_LOG_INFO
| ESP_LOG_DEBUG
| ESP_LOG_VERBOSE.

(** The two [esp_err_t] values the logger returns. *)
Inductive esp_err_t : Type :=
| ESP_OK
| ESP_FAIL.

(** What the program does to the outside, in program order. *)
Inductive event : Type :=
| EvMalloc (p : Z) (size : Z)
| EvFree (p : Z)
| EvSend (text : string) (len : Z)
| EvConsole (text : string)
| EvLog (level : esp_log_level_t) (tag : string) (text : string).

(** A live heap block: its size in bytes and the C string it holds. *)
Record block : Type := Block { blk_size : Z; blk_text : string }.

Record state : Type := State {
  heap : gmap Z block;      (* live [malloc]'d blocks *)
  queue : list Z;           (* items of [wifi_logger_queue], front first *)
  trace : list event        (* events so far, oldest first *)
}.

Definition with_heap (h : gmap Z block) (s : state) : state :=
  {| heap := h; queue := queue s; trace := trace s |}.

Definition with_queue (q : list Z) (s : state) : state :=
  {| heap := heap s; queue := q; trace := trace s |}.

Definition record_event (e : event) (s : state) : state :=
  {| heap := heap s; queue := queue s; trace := trace s ++ [e] |}.

(** Undefined behaviour the model detects. *)
Inductive fault : Type :=
| NullStore                          (* store through [NULL] *)
| WildAccess (p : Z)                 (* access to an address that is no live block *)
| OutOfBounds (written size : Z)     (* [written] bytes into a buffer of [size] *)
| BadFree (p : Z)                    (* [free] of an address that is no live block *)
| BadFormat.                         (* [vformat] gives no text *)

Inductive outcome (A : Type) : Type :=
| Ret (a : A) (s : state)            (* the call returns [a] *)
| Abort (s : state)                  (* [abort()]: the process is terminated *)
| Undefined (f : fault) (s : state). (* undefined behaviour *)

Arguments Ret {A} a s.
Arguments Abort {A} s.
Arguments Undefined {A} f s.

Definition M (A : Type) : Type := state -> outcome A.

Definition ret {A} (a : A) : M A := fun s => Ret a s.

Definition bind {A B} (c : M A) (k : A -> M B) : M B :=
  fun s =>
    match c s with
    | Ret a s' => k a s'
    | Abort s' => Abort s'
    | Undefined f s' => Undefined f s'
    end.

Notation "'do' x <- c ; k" := (bind c (fun x => k))
  (at level 10, x name, c at level 100, k at level 200).

Definition emit (e : event) : M unit := fun s => Ret tt (record_event e s).

Definition undefined {A} (f : fault) : M A := fun s => Undefined f s.

Definition NULL : Z := 0.

(** ** The C library: heap and console *)

(** [malloc(size)].  The allocator's answer [p] is an input of the model:
    [NULL] when the allocation fails, otherwise the address of the new block
    (see [malloc_answer] for what the allocator guarantees about it). *)
Definition malloc (p : Z) (size : Z) : M Z :=
  fun s =>
    if p =? NULL then Ret NULL s
    else Ret p (record_event (EvMalloc p size)
                  (with_heap (<[p := Block size EmptyString]> (heap s)) s)).

(** The allocator never hands out a live block. *)
Definition malloc_answer (s : state) (p : Z) : Prop :=
  p = NULL \/ heap s !! p = None.

(** [free(p)]: a no-op on [NULL], undefined on anything but a live block. *)
Definition free (p : Z) : M unit :=
  fun s =>
    if p =? NULL then Ret tt s
    else match heap s !! p with
         | Some _ => Ret tt (record_event (EvFree p) (with_heap (delete p (heap s)) s))
         | None => Undefined (BadFree p) s
         end.

(** Storing the string [text] and its terminator at the start of block [p]. *)
Definition store_string (p : Z) (text : string) : M unit :=
  fun s =>
    if p =? NULL then Undefined NullStore s
    else match heap s !! p with
         | None => Undefined (WildAccess p) s
         | Some b =>
             if strlen text + 1 <=? blk_size b
             then Ret tt (with_heap (<[p := Block (blk_size b) text]> (heap s)) s)
             else Undefined (OutOfBounds (strlen text + 1) (blk_size b)) s
         end.

(** Reading the C string at [p]. *)
Definition load_string (p : Z) : M string :=
  fun s =>
    match heap s !! p with
    | Some b => Ret (blk_text b) s
    | None => Undefined (WildAccess p) s
    end.

(** [vsprintf(p, fmt, args)] into a heap block; returns the characters
    written, the terminator not counted. *)
Definition vsprintf (p : Z) (fmt : string) (args : list arg) : M Z :=
  match vformat fmt args with
  | None => undefined BadFormat
  | Some text => do _ <- store_string p text; ret (strlen text)
  end.

(** [sprintf]/[vsprintf] into a local array of [size] bytes, starting
    [offset] bytes into it.  The array is threaded as the string it holds;
    the call gives back the text it wrote. *)
Definition sprintf_local (size offset : Z) (fmt : string) (args : list arg) : M string :=
  match vformat fmt args with
  | None => undefined BadFormat
  | Some text =>
      if offset + strlen text + 1 <=? size then ret text
      else undefined (OutOfBounds (offset + strlen text + 1) size)
  end.

(** [vprintf(fmt, args)]: the text goes to the console and its length is
    returned. *)
Definition vprintf (fmt : string) (args : list arg) : M Z :=
  match vformat fmt args with
  | None => undefined BadFormat
  | Some text => do _ <- emit (EvConsole text); ret (strlen text)
  end.

(** ** FreeRTOS: the queue of [char*] and [configASSERT] *)

Definition pdPASS : Z := 1.
Definition pdFALSE : Z := 0.
Definition errQUEUE_FULL : Z := 0.
Definition errQUEUE_EMPTY : Z := 0.

(** [xQueueSendToBack(q, &item, 0)]: with no ticks to wait a full queue
    rejects the item at once. *)
Definition xQueueSendToBack (capacity : Z) (item : Z) : M Z :=
  fun s =>
    if Z.of_nat (length (queue s)) <? capacity
    then Ret pdPASS (with_queue (queue s ++ [item]) s)
    else Ret errQUEUE_FULL s.

(** [xQueueReceive(q, &data, ticks)] seen at the moment it returns: the
    front item is copied into [data], or, when the queue is still empty as
    the wait window elapses, [data] is left as it was. *)
Definition xQueueReceive (data : Z) : M (Z * Z) :=
  fun s =>
    match queue s with
    | item :: rest => Ret (pdPASS, item) (with_queue rest s)
    | [] => Ret (errQUEUE_EMPTY, data) s
    end.

(** [configASSERT(x)]: [abort()] when [x] is zero, as the comment next to
    its use says it does. *)
Definition configASSERT (x : Z) : M unit :=
  fun s => if x =? 0 then Abort s else Ret tt s.

(** ** The platform's log macros *)

(** [ESP_LOGx(tag, fmt, ...)] called by the logger itself: a line on the
    local log output. *)
Definition ESP_LOG (level : esp_log_level_t) (tag fmt : string) (args : list arg) : M unit :=
  match vformat fmt args with
  | None => undefined BadFormat
  | Some text => emit (EvLog level tag text)
  end.

Definition ESP_LOGE := ESP_LOG ESP_LOG_ERROR.
Definition ESP_LOGW := ESP_LOG ESP_LOG_WARN.
Definition ESP_LOGD := ESP_LOG ESP_LOG_DEBUG.

(** ** [wifi_logger.c] *)

Definition tag_wifi_logger : string := "wifi_logger".

(** The transport compiled in ([CONFIG_TRANSPORT_PROTOCOL_...]). *)
Inductive transport_protocol : Type :=
| UDP
| TCP
| WEBSOCKET.





Section Logger.

(** [MESSAGE_QUEUE_SIZE] and [BUFFER_SIZE] of [wifi_logger.h]. *)
Variable MESSAGE_QUEUE_SIZE : Z.
Variable BUFFER_SIZE : Z.

(** The send primitive of the network manager ([send_data],
    [tcp_send_data] or [websocket_send_data]): from what has happened so
    far and the text to send, the [int] it returns. *)
Variable transport_send : list event -> string -> Z.

(** The text the timestamping step puts in front of a message, from the
    numeric severity rank and the timestamp. *)
Variable stamp : Z -> Z -> string.

Variable protocol : transport_protocol.


(** [send_to_queue]. *)
Definition send_to_queue (log_message : Z) : M esp_err_t :=
  do qerror <- xQueueSendToBack MESSAGE_QUEUE_SIZE log_message;
  if qerror =? pdPASS then
    do _ <- ESP_LOGD tag_wifi_logger "%s" [ArgStr "Data sent to Queue"];
    ret ESP_OK
  else if qerror =? errQUEUE_FULL then
    do _ <- ESP_LOGE tag_wifi_logger "%s" [ArgStr "Data not sent to Queue, Queue full"];
    ret ESP_FAIL
  else
    do _ <- ESP_LOGE tag_wifi_logger "%s" [ArgStr "Unknown error"];
    ret ESP_FAIL.

(** [receive_from_queue].  [uninit] is the indeterminate value the local
    [data] has before [xQueueReceive] writes it. *)
Definition receive_from_queue (uninit : Z) : M Z :=
  do r <- xQueueReceive uninit;
  let qerror := fst r in
  let data := snd r in
  do _ <- configASSERT qerror;
  if qerror =? pdPASS then
    do _ <- ESP_LOGD tag_wifi_logger "%s" [ArgStr "Data received from Queue"];
    ret data
  else if qerror =? pdFALSE then
    do _ <- free data;
    do _ <- ESP_LOGW tag_wifi_logger "%s" [ArgStr "Data not received from Queue"];
    ret NULL
  else
    do _ <- free data;
    do _ <- ESP_LOGE tag_wifi_logger "%s" [ArgStr "Unknown error"];
    ret NULL.

(** The [switch] of [generate_log_message]: the numeric severity rank. *)
Definition log_level_opt (level : esp_log_level_t) : Z :=
  match level with
  | ESP_LOG_ERROR => 0
  | ESP_LOG_WARN => 1
  | ESP_LOG_INFO => 2
  | ESP_LOG_DEBUG => 3
  | ESP_LOG_VERBOSE => 4
  | ESP_LOG_NONE => 2
  end.

(** Modelled from the spec: [generate_log_message_timestamp], which
    [generate_log_message] calls and whose definition is in the utility
    file, not in [wifi_logger.c].  The timestamping step allocates the
    record and fills it with the timestamp and the numeric severity rank
    put in front of the message; [p] is the allocator's answer. *)
Definition generate_log_message_timestamp
    (p : Z) (log_level timestamp : Z) (log_message : string) : M Z :=
  let text := stamp log_level timestamp +:+ log_message in
  do q <- malloc p (strlen text + 1);
  do _ <- store_string q text;
  ret q.

(** [generate_log_message].  [timestamp] is what [esp_log_timestamp()]
    returns and [p] the allocator's answer inside the timestamping step.
    [log_print_buffer] is the local array of [BUFFER_SIZE] bytes. *)
Definition generate_log_message
    (p timestamp : Z) (level : esp_log_level_t) (TAG : string) (line : Z)
    (func fmt : string) (args : list arg) : M unit :=
  do header <- sprintf_local BUFFER_SIZE 0 "%s (%s:%d) " [ArgStr TAG; ArgStr func; ArgInt line];
  let len := strlen header in
  do body <- sprintf_local BUFFER_SIZE len fmt args;
  let log_print_buffer := header +:+ body in
  do record <- generate_log_message_timestamp p (log_level_opt level) timestamp log_print_buffer;
  do _ <- send_to_queue record;
  ret tt.

(** [system_log_message_route]; [p] is the allocator's answer. *)
Definition system_log_message_route (p : Z) (fmt : string) (tag : list arg) : M Z :=
  do log_print_buffer <- malloc p BUFFER_SIZE;
  do _ <- vsprintf log_print_buffer fmt tag;
  do _ <- send_to_queue log_print_buffer;
  vprintf fmt tag.

(** The send primitive on a C string already read. *)
Definition send_text (text : string) : M Z :=
  fun s =>
    let len := transport_send (trace s) text in
    Ret len (record_event (EvSend text len) s).

(** [send_data(handle, log_message)] on a pointer. *)
Definition send_data (log_message : Z) : M Z :=
  do text <- load_string log_message;
  send_text text.

(** The string literal sent when [receive_from_queue] gives [NULL]. *)
Definition receive_error_text : string :=
  match protocol with
  | UDP | TCP => "Unknown error - receiving log message"
  | WEBSOCKET => "Unknown error - log message corrupt"
  end.

(** One iteration of the [while (true)] loop of [wifi_logger]; the three
    variants differ in the send primitive and in [receive_error_text]. *)
Definition wifi_logger_iteration (uninit : Z) : M unit :=
  do log_message <- receive_from_queue uninit;
  if negb (log_message =? NULL) then
    do len <- send_data log_message;
    do _ <- ESP_LOGD tag_wifi_logger "%d %s" [ArgInt len; ArgStr "bytes of data sent"];
    free log_message
  else
    do len <- send_text receive_error_text;
    ESP_LOGE tag_wifi_logger "%d %s" [ArgInt len; ArgStr "Unknown error"].

(** The first [n] iterations of the loop. *)
Fixpoint wifi_logger (n : nat) (uninit : Z) : M unit :=
  match n with
  | O => ret tt
  | S k => do _ <- wifi_logger_iteration uninit; wifi_logger k uninit
  end.




(** The states a run of the program goes through: it starts with an empty
    queue, and from then on producers call [system_log_message_route] and
    [generate_log_message] while the dispatch task runs iterations of its
    loop, each call returning. *)
Inductive reachable : state -> Prop :=
| reach_start (s : state) :
    queue s = [] -> reachable s
| reach_route (s s' : state) (p : Z) (fmt : string) (tag : list arg) (r : Z) :
    reachable s -> malloc_answer s p ->
    system_log_message_route p fmt tag s = Ret r s' ->
    reachable s'
| reach_generate (s s' : state) (p timestamp : Z) (level : esp_log_level_t)
    (TAG : string) (line : Z) (func fmt : string) (args : list arg) :
    reachable s -> malloc_answer s p ->
    generate_log_message p timestamp level TAG line func fmt args s = Ret tt s' ->
    reachable s'
| reach_dispatch (s s' : state) (uninit : Z) :
    reachable s ->
    wifi_logger_iteration uninit s = Ret tt s' ->
    reachable s'.

End Logger.

(** ** Reading traces and heaps *)

(** The texts handed to the transport, in order. *)
Fixpoint sends_of (tr : list event) : list string :=
  match tr with
  | [] => []
  | EvSend text _ :: tr' => text :: sends_of tr'
  | _ :: tr' => sends_of tr'
  end.

(** The addresses released, in order. *)
Fixpoint frees_of (tr : list event) : list Z :=
  match tr with
  | [] => []
  | EvFree p :: tr' => p :: frees_of tr'
  | _ :: tr' => frees_of tr'
  end.

(** The texts written to the console, in order. *)
Fixpoint console_of (tr : list event) : list string :=
  match tr with
  | [] => []
  | EvConsole text :: tr' => text :: console_of tr'
  | _ :: tr' => console_of tr'
  end.

(** The C string a pointer designates in a heap. *)
Definition text_of (h : gmap Z block) (p : Z) : string :=
  from_option blk_text EmptyString (h !! p).


(** The call had no undefined behaviour: it returned or aborted. *)
Definition well_defined {A} (o : outcome A) : Prop :=
  match o with
  | Undefined _ _ => False
  | _ => True
  end.

(** What every item of the queue satisfies in a run of the program: it is
    the address of a live block, not [NULL], and no address is queued
    twice. *)
Definition queue_inv (s : state) : Prop :=
  NoDup (queue s) /\ Forall (fun p => p <> NULL /\ is_Some (heap s !! p)) (queue s).

(** The state right after start-up: no block, an empty queue, no event. *)
Definition empty_state : state := State ∅ [] [].



(** A transport on which every send fails. *)
Definition failing_transport (_ : list event) (_ : string) : Z := -1.

(** A transport on which every send succeeds and reports the bytes sent. *)
Definition working_transport (_ : list event) (text : string) : Z := strlen text.

(** A state with [n] records queued: the blocks [1 .. n], each holding the
    one-character string ["r"], queued in that order. *)
Definition loaded_addresses (n : nat) : list Z := seqZ 1 (Z.of_nat n).

Definition loaded (n : nat) : state :=
  {| heap := list_to_map ((fun p => (p, Block 2 "r")) <$> loaded_addresses n);
     queue := loaded_addresses n;
     trace := [] |}.

(** A state whose one-slot queue is full: block [100] is queued. *)
Definition one_slot_full : state :=
  {| heap := {[100 := Block 16 "first"]}; queue := [100]; trace := [] |}.

(** Three records ["A"], ["B"], ["C"] on the heap, none queued yet. *)
Definition abc_heap : state :=
  {| heap := <[100 := Block 16 "A"]> (<[200 := Block 16 "B"]> {[300 := Block 16 "C"]});
     queue := [];
     trace := [] |}.

(** A string of [n] characters. *)
Fixpoint filler (n : nat) : string :=
  match n with
  | O => EmptyString
  | S k => String "a" (filler k)
  end.

(** [receive_from_queue] giving a timed-out result: it returns [NULL] and
    has released nothing. *)
Definition timed_out (uninit : Z) (s : state) : Prop :=
  exists s', receive_from_queue uninit s = Ret NULL s' /\
             frees_of (trace s') = frees_of (trace s).

(** A dispatch task that degrades after [threshold] consecutive send
    failures: of [threshold + 1] queued records, all of whose sends fail,
    at most [threshold] are handed to the transport. *)
Definition degrades_after (threshold : nat) : Prop :=
  exists s',
    wifi_logger failing_transport UDP (S threshold) 0 (loaded (S threshold)) = Ret tt s' /\
    (length (sends_of (trace s')) <= threshold)%nat.

#[global] Instance queue_inv_dec (s : state) : Decision (queue_inv s).
Proof. unfold queue_inv. apply _. Defined.

(** The state after the hook has queued the record ["A"] from start-up,
    with five slots and sixteen-byte buffers. *)
Definition queued_A : state :=
  {| heap := {[100 := Block 16 "A"]};
     queue := [100];
     trace := [EvMalloc 100 16;
               EvLog ESP_LOG_DEBUG tag_wifi_logger "Data sent to Queue";
               EvConsole "A"] |}.



(** The header of a record: ["<tag> (<function>:<line>) "]. *)
Definition log_header (TAG func : string) (line : Z) : string :=
  TAG +:+ " (" +:+ func +:+ ":" +:+ dec line +:+ ") ".

(** ** Equations of the queue operations *)

Example vformat_header :
  vformat "%s (%s:%d) " [ArgStr "app"; ArgStr "main"; ArgInt 42] = Some "app (main:42) ".
Proof. reflexivity. Qed.

Example vformat_negative :
  vformat "%d %s" [ArgInt (-1); ArgStr "Unknown error"] = Some "-1 Unknown error".
Proof. reflexivity. Qed.

Section Equations.

Variable MESSAGE_QUEUE_SIZE : Z.
Variable BUFFER_SIZE : Z.
Variable transport_send : list event -> string -> Z.
Variable stamp : Z -> Z -> string.
Variable protocol : transport_protocol.

Lemma sends_of_app (a b : list event) : sends_of (a ++ b) = sends_of a ++ sends_of b.
Proof.
  induction a as [|e a IH]; [reflexivity|].
  destruct e; simpl; rewrite IH; reflexivity.
Qed.

Lemma frees_of_app (a b : list event) : frees_of (a ++ b) = frees_of a ++ frees_of b.
Proof.
  induction a as [|e a IH]; [reflexivity|].
  destruct e; simpl; rewrite IH; reflexivity.
Qed.

Lemma console_of_app (a b : list event) : console_of (a ++ b) = console_of a ++ console_of b.
Proof.
  induction a as [|e a IH]; [reflexivity|].
  destruct e; simpl; rewrite IH; reflexivity.
Qed.

Lemma send_to_queue_room (s : state) (p : Z) :
  Z.of_nat (length (queue s)) < MESSAGE_QUEUE_SIZE ->
  send_to_queue MESSAGE_QUEUE_SIZE p s =
    Ret ESP_OK (record_event (EvLog ESP_LOG_DEBUG tag_wifi_logger "Data sent to Queue")
                  (with_queue (queue s ++ [p]) s)).
Proof.
  intros Hroom. unfold send_to_queue, bind, xQueueSendToBack.
  apply Z.ltb_lt in Hroom. rewrite Hroom. reflexivity.
Qed.

Lemma send_to_queue_full (s : state) (p : Z) :
  MESSAGE_QUEUE_SIZE <= Z.of_nat (length (queue s)) ->
  send_to_queue MESSAGE_QUEUE_SIZE p s =
    Ret ESP_FAIL (record_event
                    (EvLog ESP_LOG_ERROR tag_wifi_logger "Data not sent to Queue, Queue full") s).
Proof.
  intros Hfull. unfold send_to_queue, bind, xQueueSendToBack.
  apply Z.ltb_ge in Hfull. rewrite Hfull. reflexivity.
Qed.

Lemma receive_from_queue_empty (uninit : Z) (s : state) :
  queue s = [] -> receive_from_queue uninit s = Abort s.
Proof.
  intros Hq. unfold receive_from_queue, bind, xQueueReceive. rewrite Hq. reflexivity.
Qed.

Lemma receive_from_queue_item (uninit : Z) (s : state) (p : Z) (rest : list Z) :
  queue s = p :: rest ->
  receive_from_queue uninit s =
    Ret p (record_event (EvLog ESP_LOG_DEBUG tag_wifi_logger "Data received from Queue")
             (with_queue rest s)).
Proof.
  intros Hq. unfold receive_from_queue, bind, xQueueReceive. rewrite Hq. reflexivity.
Qed.

Lemma dec_log_line (len : Z) (what : string) :
  vformat "%d %s" [ArgInt len; ArgStr what] = Some (dec len +:+ " " +:+ what +:+ "").
Proof. reflexivity. Qed.

(** One iteration on a queue whose front item is a live block: the send,
    the log line and the release, in that order. *)
Lemma wifi_logger_iteration_record (uninit : Z) (s : state) (p : Z) (rest : list Z) (b : block) :
  queue s = p :: rest -> p <> NULL -> heap s !! p = Some b ->
  wifi_logger_iteration transport_send protocol uninit s =
    Ret tt
      {| heap := delete p (heap s);
         queue := rest;
         trace :=
           trace s ++
           [EvLog ESP_LOG_DEBUG tag_wifi_logger "Data received from Queue";
            EvSend (blk_text b)
              (transport_send
                 (trace s ++ [EvLog ESP_LOG_DEBUG tag_wifi_logger "Data received from Queue"])
                 (blk_text b));
            EvLog ESP_LOG_DEBUG tag_wifi_logger
              (dec (transport_send
                      (trace s ++ [EvLog ESP_LOG_DEBUG tag_wifi_logger "Data received from Queue"])
                      (blk_text b)) +:+ " bytes of data sent");
            EvFree p] |}.
Proof.
  intros Hq Hp Hb.
  unfold wifi_logger_iteration, bind.
  rewrite (receive_from_queue_item uninit s p rest Hq).
  apply Z.eqb_neq in Hp. rewrite Hp. cbn [negb].
  unfold send_data, bind, load_string, send_text, ESP_LOGD, ESP_LOG, free.
  cbn [heap with_queue record_event queue trace].
  rewrite Hb, dec_log_line. unfold emit, record_event, with_heap.
  unfold with_queue. cbn [heap queue trace]. rewrite Hp, Hb.
  rewrite <- !app_assoc. reflexivity.
Qed.

Lemma queue_inv_front (s : state) (p : Z) (rest : list Z) :
  queue s = p :: rest -> queue_inv s ->
  p <> NULL /\ (exists b, heap s !! p = Some b) /\ p ∉ rest.
Proof.
  intros Hq [Hnd Hall]. rewrite Hq in Hnd, Hall.
  apply NoDup_cons in Hnd as [Hnotin _].
  apply Forall_cons in Hall as [[Hp [b Hb]] _].
  split; [exact Hp|]. split; [exists b; exact Hb|exact Hnotin].
Qed.

(** Releasing the front item keeps the rest of the queue well formed. *)
Lemma queue_inv_release (s : state) (p : Z) (rest : list Z) (tr : list event) :
  queue s = p :: rest -> queue_inv s ->
  queue_inv {| heap := delete p (heap s); queue := rest; trace := tr |}.
Proof.
  intros Hq [Hnd Hall]. rewrite Hq in Hnd, Hall.
  apply NoDup_cons in Hnd as [Hnotin Hnd].
  apply Forall_cons in Hall as [_ Hall].
  split; cbn [queue heap]; [exact Hnd|].
  rewrite Forall_forall in Hall |- *.
  intros q Hin. destruct (Hall q Hin) as [Hq0 Hlive].
  split; [exact Hq0|].
  rewrite lookup_delete_ne; [exact Hlive|].
  intros ->. exact (Hnotin Hin).
Qed.

Lemma text_of_delete (h : gmap Z block) (p : Z) (l : list Z) :
  p ∉ l -> map (text_of (delete p h)) l = map (text_of h) l.
Proof.
  intros Hnotin. apply map_ext_in. intros q Hin. unfold text_of.
  rewrite lookup_delete_ne; [reflexivity|].
  intros ->. apply Hnotin. apply list_elem_of_In. exact Hin.
Qed.

(** The first [n] iterations on a well-formed queue of at least [n] items:
    each item is sent and then released, front first. *)
Lemma wifi_logger_drains (n : nat) :
  forall (uninit : Z) (s : state),
    queue_inv s -> (n <= length (queue s))%nat ->
    exists s',
      wifi_logger transport_send protocol n uninit s = Ret tt s' /\
      queue s' = drop n (queue s) /\
      queue_inv s' /\
      sends_of (trace s') = sends_of (trace s) ++ map (text_of (heap s)) (take n (queue s)) /\
      frees_of (trace s') = frees_of (trace s) ++ take n (queue s) /\
      console_of (trace s') = console_of (trace s) /\
      (forall q, heap s' !! q = if decide (q ∈ take n (queue s)) then None else heap s !! q).
Proof.
  induction n as [|n IH]; intros uninit s Hinv Hlen.
  - exists s. cbn [wifi_logger ret take drop map].
    rewrite !app_nil_r.
    split; [reflexivity|]. split; [reflexivity|]. split; [exact Hinv|].
    split; [reflexivity|]. split; [reflexivity|]. split; [reflexivity|].
    intros q. destruct (decide (q ∈ [])) as [Hin|_]; [inversion Hin|reflexivity].
  - destruct (queue s) as [|p rest] eqn:Hq; [cbn in Hlen; lia|].
    destruct (queue_inv_front s p rest Hq Hinv) as [Hp [[b Hb] Hnotin]].
    pose proof (queue_inv_release s p rest
                  (trace s ++
                   [EvLog ESP_LOG_DEBUG tag_wifi_logger "Data received from Queue";
                    EvSend (blk_text b)
                      (transport_send
                         (trace s ++
                          [EvLog ESP_LOG_DEBUG tag_wifi_logger "Data received from Queue"])
                         (blk_text b));
                    EvLog ESP_LOG_DEBUG tag_wifi_logger
                      (dec (transport_send
                              (trace s ++
                               [EvLog ESP_LOG_DEBUG tag_wifi_logger
                                  "Data received from Queue"])
                              (blk_text b)) +:+ " bytes of data sent");
                    EvFree p]) Hq Hinv) as Hinv1.
    cbn [wifi_logger]. unfold bind at 1.
    rewrite (wifi_logger_iteration_record uninit s p rest b Hq Hp Hb).
    cbn [length] in Hlen.
    destruct (IH uninit _ Hinv1) as (s' & Hrun & Hqueue & Hinv' & Hsends & Hfrees & Hcons & Hheap).
    { cbn [queue]. lia. }
    exists s'. cbn [queue heap trace] in *.
    split; [exact Hrun|]. split; [exact Hqueue|]. split; [exact Hinv'|].
    split; [|split; [|split]].
    + rewrite Hsends, sends_of_app. cbn [sends_of take map].
      rewrite text_of_delete by (intros Hin; apply Hnotin; exact (subseteq_take n rest p Hin)).
      unfold text_of at 2. rewrite Hb. cbn [from_option].
      rewrite <- app_assoc. reflexivity.
    + rewrite Hfrees, frees_of_app. cbn [frees_of take].
      rewrite <- app_assoc. reflexivity.
    + rewrite Hcons, console_of_app. cbn [console_of]. apply app_nil_r.
    + intros q. rewrite Hheap. cbn [take].
      destruct (decide (q ∈ take n rest)) as [Hin|Hnin].
      * rewrite decide_True by (apply elem_of_cons; right; exact Hin). reflexivity.
      * destruct (decide (q = p)) as [->|Hne].
        -- rewrite decide_True by (apply elem_of_cons; left; reflexivity).
           apply lookup_delete_eq.
        -- rewrite decide_False by (rewrite elem_of_cons; intros [?|?]; contradiction).
           apply lookup_delete_ne. congruence.
Qed.

(** ** Equations of the producers *)

Lemma strlen_nonneg (t : string) : 0 <= strlen t.
Proof. unfold strlen. lia. Qed.

Lemma length_append (a b : string) :
  String.length (a +:+ b) = (String.length a + String.length b)%nat.
Proof.
  induction a as [|c a IH]; simpl; [reflexivity|rewrite IH; reflexivity].
Qed.

Lemma strlen_app (a b : string) : strlen (a +:+ b) = strlen a + strlen b.
Proof.
  unfold strlen. rewrite length_append. lia.
Qed.

Lemma header_format (TAG func : string) (line : Z) :
  vformat "%s (%s:%d) " [ArgStr TAG; ArgStr func; ArgInt line] = Some (log_header TAG func line).
Proof. reflexivity. Qed.

(** The hook on a call with defined behaviour: the allocation succeeded and
    the expanded text fits the block. *)
Lemma system_log_message_route_defined (s : state) (p : Z) (fmt : string) (tag : list arg)
    (text : string) :
  vformat fmt tag = Some text -> strlen text + 1 <= BUFFER_SIZE -> p <> NULL ->
  system_log_message_route MESSAGE_QUEUE_SIZE BUFFER_SIZE p fmt tag s =
    Ret (strlen text)
      {| heap := <[p := Block BUFFER_SIZE text]> (heap s);
         queue := if Z.of_nat (length (queue s)) <? MESSAGE_QUEUE_SIZE
                  then queue s ++ [p] else queue s;
         trace := trace s ++
                  [EvMalloc p BUFFER_SIZE;
                   if Z.of_nat (length (queue s)) <? MESSAGE_QUEUE_SIZE
                   then EvLog ESP_LOG_DEBUG tag_wifi_logger "Data sent to Queue"
                   else EvLog ESP_LOG_ERROR tag_wifi_logger "Data not sent to Queue, Queue full";
                   EvConsole text] |}.
Proof.
  intros Hfmt Hfit Hp.
  unfold system_log_message_route, bind at 1, malloc.
  apply Z.eqb_neq in Hp. rewrite Hp.
  unfold bind at 1, vsprintf. rewrite Hfmt.
  unfold bind at 1, store_string. rewrite Hp.
  unfold record_event, with_heap. cbn [heap queue trace].
  rewrite lookup_insert_eq. cbn [blk_size].
  apply Z.leb_le in Hfit. rewrite Hfit. unfold ret.
  rewrite insert_insert_eq.
  unfold bind, vprintf. rewrite Hfmt.
  destruct (Z.of_nat (length (queue s)) <? MESSAGE_QUEUE_SIZE) eqn:Hroom.
  - rewrite send_to_queue_room by (cbn [queue]; apply Z.ltb_lt; exact Hroom).
    unfold bind, emit, record_event, with_queue, ret. cbn [heap queue trace].
    rewrite <- !app_assoc. reflexivity.
  - rewrite send_to_queue_full by (cbn [queue]; apply Z.ltb_ge; exact Hroom).
    unfold bind, emit, record_event, ret. cbn [heap queue trace].
    rewrite <- !app_assoc. reflexivity.
Qed.

(** A call of the hook that returns had defined behaviour. *)
Lemma system_log_message_route_returns (s s' : state) (p : Z) (fmt : string) (tag : list arg)
    (r : Z) :
  system_log_message_route MESSAGE_QUEUE_SIZE BUFFER_SIZE p fmt tag s = Ret r s' ->
  exists text, vformat fmt tag = Some text /\ strlen text + 1 <= BUFFER_SIZE /\ p <> NULL.
Proof.
  unfold system_log_message_route, bind at 1, malloc.
  destruct (p =? NULL) eqn:Hp.
  - unfold bind at 1, vsprintf. destruct (vformat fmt tag); [|discriminate].
    unfold bind at 1, store_string. cbn. discriminate.
  - unfold bind at 1, vsprintf. destruct (vformat fmt tag) as [text|]; [|discriminate].
    unfold bind at 1, store_string. rewrite Hp.
    unfold record_event, with_heap. cbn [heap queue trace].
    rewrite lookup_insert_eq. cbn [blk_size].
    destruct (strlen text + 1 <=? BUFFER_SIZE) eqn:Hfit; [|discriminate].
    intros _. exists text. split; [reflexivity|].
    split; [apply Z.leb_le; exact Hfit|apply Z.eqb_neq; exact Hp].
Qed.

(** The formatter on a call with defined behaviour: header and message
    fit [log_print_buffer] and the allocation of the record succeeded. *)
Lemma generate_log_message_defined (s : state) (p timestamp : Z) (level : esp_log_level_t)
    (TAG : string) (line : Z) (func fmt : string) (args : list arg) (body : string) :
  vformat fmt args = Some body ->
  strlen (log_header TAG func line) + strlen body + 1 <= BUFFER_SIZE ->
  p <> NULL ->
  generate_log_message MESSAGE_QUEUE_SIZE BUFFER_SIZE stamp p timestamp level TAG line func
    fmt args s =
    Ret tt
      {| heap :=
           <[p := Block
                    (strlen (stamp (log_level_opt level) timestamp +:+
                             (log_header TAG func line +:+ body)) + 1)
                    (stamp (log_level_opt level) timestamp +:+
                     (log_header TAG func line +:+ body))]> (heap s);
         queue := if Z.of_nat (length (queue s)) <? MESSAGE_QUEUE_SIZE
                  then queue s ++ [p] else queue s;
         trace := trace s ++
                  [EvMalloc p
                     (strlen (stamp (log_level_opt level) timestamp +:+
                              (log_header TAG func line +:+ body)) + 1);
                   if Z.of_nat (length (queue s)) <? MESSAGE_QUEUE_SIZE
                   then EvLog ESP_LOG_DEBUG tag_wifi_logger "Data sent to Queue"
                   else EvLog ESP_LOG_ERROR tag_wifi_logger
                          "Data not sent to Queue, Queue full"] |}.
Proof.
  intros Hfmt Hfit Hp.
  pose proof (strlen_nonneg body) as Hbody.
  unfold generate_log_message, bind at 1, sprintf_local.
  rewrite header_format.
  assert ((0 + strlen (log_header TAG func line) + 1 <=? BUFFER_SIZE) = true) as ->
    by (apply Z.leb_le; lia).
  unfold ret at 1. unfold bind at 1. rewrite Hfmt.
  apply Z.leb_le in Hfit. rewrite Hfit. unfold ret at 1.
  unfold bind at 1, generate_log_message_timestamp, bind at 1, malloc.
  apply Z.eqb_neq in Hp. rewrite Hp.
  unfold bind at 1, store_string. rewrite Hp.
  unfold record_event, with_heap. cbn [heap queue trace].
  rewrite lookup_insert_eq. cbn [blk_size].
  rewrite Z.leb_refl. unfold ret at 1.
  rewrite insert_insert_eq.
  destruct (Z.of_nat (length (queue s)) <? MESSAGE_QUEUE_SIZE) eqn:Hroom.
  - unfold bind. rewrite send_to_queue_room by (cbn [queue]; apply Z.ltb_lt; exact Hroom).
    unfold record_event, with_queue, ret. cbn [heap queue trace].
    rewrite <- !app_assoc. reflexivity.
  - unfold bind. rewrite send_to_queue_full by (cbn [queue]; apply Z.ltb_ge; exact Hroom).
    unfold record_event, ret. cbn [heap queue trace].
    rewrite <- !app_assoc. reflexivity.
Qed.

(** A call of the formatter that returns had defined behaviour. *)
Lemma generate_log_message_returns (s s' : state) (p timestamp : Z) (level : esp_log_level_t)
    (TAG : string) (line : Z) (func fmt : string) (args : list arg) :
  generate_log_message MESSAGE_QUEUE_SIZE BUFFER_SIZE stamp p timestamp level TAG line func
    fmt args s = Ret tt s' ->
  exists body,
    vformat fmt args = Some body /\
    strlen (log_header TAG func line) + strlen body + 1 <= BUFFER_SIZE /\
    p <> NULL.
Proof.
  unfold generate_log_message, bind at 1, sprintf_local.
  rewrite header_format.
  destruct (0 + strlen (log_header TAG func line) + 1 <=? BUFFER_SIZE); [|discriminate].
  unfold ret at 1. unfold bind at 1.
  destruct (vformat fmt args) as [body|]; [|discriminate].
  destruct (strlen (log_header TAG func line) + strlen body + 1 <=? BUFFER_SIZE) eqn:Hfit;
    [|discriminate].
  unfold ret at 1.
  unfold bind at 1, generate_log_message_timestamp, bind at 1, malloc.
  destruct (p =? NULL) eqn:Hp.
  - unfold bind at 1, store_string. cbn. discriminate.
  - intros _. exists body. split; [reflexivity|].
    split; [apply Z.leb_le; exact Hfit|apply Z.eqb_neq; exact Hp].
Qed.

(** When header and message do not fit, the formatter stores past the end
    of [log_print_buffer]. *)
Lemma generate_log_message_overflow (s : state) (p timestamp : Z) (level : esp_log_level_t)
    (TAG : string) (line : Z) (func fmt : string) (args : list arg) (body : string) :
  vformat fmt args = Some body ->
  BUFFER_SIZE < strlen (log_header TAG func line) + strlen body + 1 ->
  exists written,
    generate_log_message MESSAGE_QUEUE_SIZE BUFFER_SIZE stamp p timestamp level TAG line func
      fmt args s = Undefined (OutOfBounds written BUFFER_SIZE) s /\
    BUFFER_SIZE < written.
Proof.
  intros Hfmt Hbig.
  unfold generate_log_message, bind at 1, sprintf_local.
  rewrite header_format.
  destruct (0 + strlen (log_header TAG func line) + 1 <=? BUFFER_SIZE) eqn:Hhead.
  - unfold ret at 1. unfold bind at 1. rewrite Hfmt.
    assert ((strlen (log_header TAG func line) + strlen body + 1 <=? BUFFER_SIZE) = false) as ->
      by (apply Z.leb_gt; lia).
    eexists. split; [reflexivity|lia].
  - apply Z.leb_gt in Hhead. eexists. split; [reflexivity|lia].
Qed.

(** ** The queue invariant along a run *)

Lemma queue_inv_alloc (s : state) (p : Z) (b : block) (tr : list event) (enqueued : bool) :
  queue_inv s -> p <> NULL -> heap s !! p = None ->
  queue_inv {| heap := <[p := b]> (heap s);
               queue := if enqueued then queue s ++ [p] else queue s;
               trace := tr |}.
Proof.
  intros [Hnd Hall] Hp Hfresh.
  assert (Forall (fun q => q <> NULL /\ is_Some (<[p := b]> (heap s) !! q)) (queue s)) as Hold.
  { rewrite Forall_forall in Hall |- *. intros q Hin.
    destruct (Hall q Hin) as [Hq Hlive]. split; [exact Hq|].
    rewrite lookup_insert_ne; [exact Hlive|].
    intros ->. rewrite Hfresh in Hlive. destruct Hlive as [? Hlive]. discriminate. }
  split; cbn [queue heap]; destruct enqueued.
  - apply NoDup_app. split; [exact Hnd|]. split; [|apply NoDup_singleton].
    intros q Hin Hq. apply list_elem_of_singleton in Hq as ->.
    rewrite Forall_forall in Hall. destruct (Hall p Hin) as [_ [? Hlive]].
    rewrite Hfresh in Hlive. discriminate.
  - exact Hnd.
  - apply Forall_app. split; [exact Hold|].
    apply Forall_singleton. split; [exact Hp|]. rewrite lookup_insert_eq. eauto.
  - exact Hold.
Qed.

Lemma malloc_answer_fresh (s : state) (p : Z) :
  malloc_answer s p -> p <> NULL -> heap s !! p = None.
Proof. intros [Hnull|Hfresh] Hp; [contradiction|exact Hfresh]. Qed.

(** Every state of a run has a well-formed queue. *)
Lemma reachable_queue_inv (s : state) :
  reachable MESSAGE_QUEUE_SIZE BUFFER_SIZE transport_send stamp protocol s -> queue_inv s.
Proof.
  induction 1 as [s Hq|s s' p fmt tag r _ IH Hmalloc Hrun
                 |s s' p timestamp level TAG line func fmt args _ IH Hmalloc Hrun
                 |s s' uninit _ IH Hrun].
  - unfold queue_inv. rewrite Hq. split; [apply NoDup_nil_2|apply Forall_nil_2].
  - destruct (system_log_message_route_returns _ _ _ _ _ _ Hrun) as (text & Hfmt & Hfit & Hp).
    rewrite (system_log_message_route_defined s p fmt tag text Hfmt Hfit Hp) in Hrun.
    injection Hrun as _ <-.
    apply queue_inv_alloc; [exact IH|exact Hp|apply malloc_answer_fresh; assumption].
  - destruct (generate_log_message_returns _ _ _ _ _ _ _ _ _ _ Hrun) as (body & Hfmt & Hfit & Hp).
    rewrite (generate_log_message_defined s p timestamp level TAG line func fmt args body
               Hfmt Hfit Hp) in Hrun.
    injection Hrun as <-.
    apply queue_inv_alloc; [exact IH|exact Hp|apply malloc_answer_fresh; assumption].
  - destruct (queue s) as [|q rest] eqn:Hq.
    + unfold wifi_logger_iteration, bind in Hrun.
      rewrite (receive_from_queue_empty uninit s Hq) in Hrun. discriminate.
    + destruct (queue_inv_front s q rest Hq IH) as [Hq0 [[b Hb] _]].
      rewrite (wifi_logger_iteration_record uninit s q rest b Hq Hq0 Hb) in Hrun.
      injection Hrun as <-. apply queue_inv_release; assumption.
Qed.

End Equations.

(** ** The receive path *)

(** C1 (as amended): for every call to [receive_from_queue] on an empty
    queue whose wait window elapses, the call does not return a timed-out
    result: the assertion on the queue result fails and the process is
    aborted, in the state the call started from, so that no buffer has been
    released and none has been read. *)
Theorem C1_receive_on_empty_queue_aborts (uninit : Z) (s : state) :
  queue s = [] ->
  receive_from_queue uninit s = Abort s /\
  forall r s', receive_from_queue uninit s <> Ret r s'.
Proof.
  intros Hq. rewrite (receive_from_queue_empty uninit s Hq).
  split; [reflexivity|discriminate].
Qed.

Lemma C1_receive_on_empty_queue_aborts_witness :
  queue abc_heap = [] /\
  receive_from_queue 7 abc_heap = Abort abc_heap /\
  forall r s', receive_from_queue 7 abc_heap <> Ret r s'.
Proof.
  split; [reflexivity|].
  apply (C1_receive_on_empty_queue_aborts 7 abc_heap). reflexivity.
Defined.

(** On the empty queue [receive_from_queue] gives no timed-out result. *)
Lemma C1_no_timed_out_result : queue abc_heap = [] /\ ~ timed_out 7 abc_heap.
Proof.
  split; [reflexivity|].
  intros [s' [Hret _]].
  rewrite (receive_from_queue_empty 7 abc_heap eq_refl) in Hret. discriminate.
Qed.

(** Whatever the state, a call of [receive_from_queue] that returns has
    taken the [pdPASS] branch: it gives back the front item and has only
    logged the reception. *)
Lemma receive_from_queue_returns (uninit : Z) (s s1 : state) (r : Z) :
  receive_from_queue uninit s = Ret r s1 ->
  exists rest,
    queue s = r :: rest /\
    s1 = record_event (EvLog ESP_LOG_DEBUG tag_wifi_logger "Data received from Queue")
           (with_queue rest s).
Proof.
  intros Hret. destruct (queue s) as [|p rest] eqn:Hq.
  - rewrite (receive_from_queue_empty uninit s Hq) in Hret. discriminate.
  - rewrite (receive_from_queue_item uninit s p rest Hq) in Hret.
    injection Hret as -> <-. exists rest. split; reflexivity.
Qed.

(** C10: in every state of a run, a call to [receive_from_queue] that
    returns has received an item: it returns the dequeued pointer, which is
    not [NULL]; it has released nothing and logged neither of the two
    failure lines, so the branches that free [data] and return [NULL] were
    not taken; and the iteration of the dispatch loop around it takes the
    branch that sends the record itself and releases it, not the branch
    that sends the synthesized error string. *)
Theorem C10_receive_returns_the_dequeued_pointer
    (MESSAGE_QUEUE_SIZE BUFFER_SIZE : Z) (transport_send : list event -> string -> Z)
    (stamp : Z -> Z -> string) (protocol : transport_protocol)
    (uninit : Z) (s s1 : state) (r : Z) :
  reachable MESSAGE_QUEUE_SIZE BUFFER_SIZE transport_send stamp protocol s ->
  receive_from_queue uninit s = Ret r s1 ->
  (exists rest,
     queue s = r :: rest /\ r <> NULL /\
     queue s1 = rest /\ heap s1 = heap s /\
     trace s1 = trace s ++ [EvLog ESP_LOG_DEBUG tag_wifi_logger "Data received from Queue"]) /\
  (exists s2 len,
     wifi_logger_iteration transport_send protocol uninit s = Ret tt s2 /\
     trace s2 = trace s ++
                [EvLog ESP_LOG_DEBUG tag_wifi_logger "Data received from Queue";
                 EvSend (text_of (heap s) r) len;
                 EvLog ESP_LOG_DEBUG tag_wifi_logger (dec len +:+ " bytes of data sent");
                 EvFree r]).
Proof.
  intros Hreach Hret.
  apply reachable_queue_inv in Hreach.
  destruct (receive_from_queue_returns uninit s s1 r Hret) as (rest & Hq & ->).
  destruct (queue_inv_front s r rest Hq Hreach) as [Hr [[b Hb] _]].
  split.
  - exists rest. repeat split; try reflexivity; assumption.
  - eexists; eexists. split.
    + apply (wifi_logger_iteration_record transport_send protocol uninit s r rest b Hq Hr Hb).
    + cbn [trace]. unfold text_of. rewrite Hb. reflexivity.
Qed.

Lemma C10_receive_returns_the_dequeued_pointer_witness :
  (exists rest,
     queue queued_A = 100 :: rest /\ 100 <> NULL /\
     queue (record_event (EvLog ESP_LOG_DEBUG tag_wifi_logger "Data received from Queue")
              (with_queue [] queued_A)) = rest /\
     heap (record_event (EvLog ESP_LOG_DEBUG tag_wifi_logger "Data received from Queue")
             (with_queue [] queued_A)) = heap queued_A /\
     trace (record_event (EvLog ESP_LOG_DEBUG tag_wifi_logger "Data received from Queue")
              (with_queue [] queued_A)) =
       trace queued_A ++ [EvLog ESP_LOG_DEBUG tag_wifi_logger "Data received from Queue"]) /\
  (exists s2 len,
     wifi_logger_iteration working_transport UDP 7 queued_A = Ret tt s2 /\
     trace s2 = trace queued_A ++
                [EvLog ESP_LOG_DEBUG tag_wifi_logger "Data received from Queue";
                 EvSend (text_of (heap queued_A) 100) len;
                 EvLog ESP_LOG_DEBUG tag_wifi_logger (dec len +:+ " bytes of data sent");
                 EvFree 100]).
Proof.
  apply (C10_receive_returns_the_dequeued_pointer 5 16 working_transport
           (fun _ _ => EmptyString) UDP 7 queued_A).
  - apply (reach_route 5 16 working_transport (fun _ _ => EmptyString) UDP
             empty_state queued_A 100 "A" [] 1).
    + apply reach_start. reflexivity.
    + right. reflexivity.
    + vm_compute. reflexivity.
  - vm_compute. reflexivity.
Defined.

(** ** The dispatch loop *)

Lemma loaded_queue_inv (n : nat) : queue_inv (loaded n).
Proof.
  unfold queue_inv, loaded, loaded_addresses. cbn [queue heap]. split.
  - apply NoDup_seqZ.
  - apply Forall_forall. intros p Hin. split.
    + apply elem_of_seqZ in Hin. unfold NULL. lia.
    + destruct (list_to_map ((fun p => (p, Block 2 "r")) <$> seqZ 1 (Z.of_nat n)) !! p)
        as [b|] eqn:Hlook; [eauto|].
      apply not_elem_of_list_to_map in Hlook. exfalso. apply Hlook.
      rewrite <- list_fmap_compose.
      rewrite (list_fmap_ext _ id (seqZ 1 (Z.of_nat n))) by reflexivity.
      rewrite list_fmap_id. exact Hin.
Qed.

Lemma loaded_queue_length (n : nat) : length (queue (loaded n)) = n.
Proof.
  unfold loaded, loaded_addresses. cbn [queue]. rewrite length_seqZ. lia.
Qed.

(** C4 (as amended): the dispatch task has no degraded state.  On every
    transport, one that fails on each send included, the first [n]
    iterations on a queue of at least [n] records hand each dequeued record
    to the transport, one send per record, and release it; no send is
    skipped however many sends have failed before. *)
Theorem C4_every_dequeued_record_is_sent
    (transport_send : list event -> string -> Z) (protocol : transport_protocol)
    (n : nat) (uninit : Z) (s : state) :
  queue_inv s -> (n <= length (queue s))%nat ->
  exists s',
    wifi_logger transport_send protocol n uninit s = Ret tt s' /\
    length (sends_of (trace s')) = (length (sends_of (trace s)) + n)%nat /\
    frees_of (trace s') = frees_of (trace s) ++ take n (queue s) /\
    queue s' = drop n (queue s).
Proof.
  intros Hinv Hlen.
  destruct (wifi_logger_drains transport_send protocol n uninit s Hinv Hlen)
    as (s' & Hrun & Hqueue & _ & Hsends & Hfrees & _ & _).
  exists s'. split; [exact Hrun|]. split; [|split; [exact Hfrees|exact Hqueue]].
  rewrite Hsends, length_app, length_map, length_take_le by exact Hlen.
  reflexivity.
Qed.

Lemma C4_every_dequeued_record_is_sent_witness :
  exists s',
    wifi_logger failing_transport TCP 4 7 (loaded 4) = Ret tt s' /\
    length (sends_of (trace s')) = (length (sends_of (trace (loaded 4))) + 4)%nat /\
    frees_of (trace s') = frees_of (trace (loaded 4)) ++ take 4 (queue (loaded 4)) /\
    queue s' = drop 4 (queue (loaded 4)).
Proof.
  apply (C4_every_dequeued_record_is_sent failing_transport TCP 4 7 (loaded 4)).
  - refine (bool_decide_unpack _ _). vm_compute. exact I.
  - vm_compute. lia.
Defined.

(** No threshold of consecutive failures makes the loop skip a send. *)
Lemma C4_no_threshold_degrades : ~ exists threshold, degrades_after threshold.
Proof.
  intros [threshold (s' & Hrun & Hfew)].
  destruct (wifi_logger_drains failing_transport UDP (S threshold) 0 (loaded (S threshold))
              (loaded_queue_inv (S threshold)))
    as (s'' & Hrun' & _ & _ & Hsends & _).
  { rewrite loaded_queue_length. lia. }
  rewrite Hrun in Hrun'. injection Hrun' as <-.
  rewrite Hsends, length_app, length_map, length_take_le in Hfew
    by (rewrite loaded_queue_length; lia).
  lia.
Qed.




(** The scenario end to end, through the hook: three records queued into
    five slots, then three iterations of the loop. *)
Example abc_through_the_hook :
  match (do _ <- system_log_message_route 5 16 100 "A" [];
         do _ <- system_log_message_route 5 16 200 "B" [];
         do _ <- system_log_message_route 5 16 300 "C" [];
         wifi_logger working_transport UDP 3 7) empty_state with
  | Ret _ s => sends_of (trace s) = ["A"; "B"; "C"] /\ queue s = [] /\ heap s = ∅
  | _ => False
  end.
Proof. vm_compute. repeat split. Qed.

(** C6: every record the dispatch task dequeues is released exactly once,
    after the transport send call and whatever that call returned.  One
    iteration on a queue whose front item is [p]: the block was live, the
    new events are the reception line, the send of the record's text with
    the transport's answer [len], the line that logs [len], and one release
    of [p]; afterwards [p] is no live block any more. *)
Theorem C6_released_once_after_the_send
    (transport_send : list event -> string -> Z) (protocol : transport_protocol)
    (uninit : Z) (s : state) (p : Z) (rest : list Z) :
  queue_inv s -> queue s = p :: rest ->
  exists b len s',
    heap s !! p = Some b /\
    wifi_logger_iteration transport_send protocol uninit s = Ret tt s' /\
    len = transport_send
            (trace s ++ [EvLog ESP_LOG_DEBUG tag_wifi_logger "Data received from Queue"])
            (blk_text b) /\
    trace s' = trace s ++
               [EvLog ESP_LOG_DEBUG tag_wifi_logger "Data received from Queue";
                EvSend (blk_text b) len;
                EvLog ESP_LOG_DEBUG tag_wifi_logger (dec len +:+ " bytes of data sent");
                EvFree p] /\
    heap s' = delete p (heap s) /\
    queue s' = rest /\
    p ∉ rest.
Proof.
  intros Hinv Hq.
  destruct (queue_inv_front s p rest Hq Hinv) as [Hp [[b Hb] Hnotin]].
  exists b. eexists. eexists.
  split; [exact Hb|].
  split; [apply (wifi_logger_iteration_record transport_send protocol uninit s p rest b Hq Hp Hb)|].
  cbn [trace heap queue]. repeat split. exact Hnotin.
Qed.

Lemma C6_released_once_after_the_send_witness :
  exists b len s',
    heap queued_A !! 100 = Some b /\
    wifi_logger_iteration failing_transport WEBSOCKET 7 queued_A = Ret tt s' /\
    len = failing_transport
            (trace queued_A ++
             [EvLog ESP_LOG_DEBUG tag_wifi_logger "Data received from Queue"])
            (blk_text b) /\
    trace s' = trace queued_A ++
               [EvLog ESP_LOG_DEBUG tag_wifi_logger "Data received from Queue";
                EvSend (blk_text b) len;
                EvLog ESP_LOG_DEBUG tag_wifi_logger (dec len +:+ " bytes of data sent");
                EvFree 100] /\
    heap s' = delete 100 (heap queued_A) /\
    queue s' = [] /\
    100 ∉ ([] : list Z).
Proof.
  apply (C6_released_once_after_the_send failing_transport WEBSOCKET 7 queued_A 100 []).
  - refine (bool_decide_unpack _ _). vm_compute. exact I.
  - reflexivity.
Defined.

(** ** Errors and termination *)




(** ** The producers *)

(** C2, on the code: the hook called on a full queue.  [send_to_queue]
    rejects the record at once and the hook returns, but the block it
    allocated is still live, is not in the queue and has not been released:
    nothing holds its address any more. *)
Theorem C2_rejected_record_stays_allocated :
  send_to_queue 1 200 one_slot_full =
    Ret ESP_FAIL
      (record_event (EvLog ESP_LOG_ERROR tag_wifi_logger "Data not sent to Queue, Queue full")
         one_slot_full) /\
  exists s',
    system_log_message_route 1 16 200 "second" [] one_slot_full = Ret 6 s' /\
    heap s' !! 200 = Some (Block 16 "second") /\
    queue s' = [100] /\
    frees_of (trace s') = [].
Proof.
  split; [reflexivity|].
  eexists. split; [vm_compute; reflexivity|].
  split; [reflexivity|]. split; reflexivity.
Qed.



(** ** The formatter *)




Lemma filler_length (n : nat) : String.length (filler n) = n.
Proof. induction n as [|n IH]; cbn; [reflexivity|rewrite IH; reflexivity]. Qed.

(** C7, on the code: whatever the size of [log_print_buffer], there is a
    call of the formatter that stores more bytes into it than it has: the
    header and the message are written with [sprintf] and [vsprintf], which
    do not truncate.  The message is a string of [BUFFER_SIZE] characters
    printed with [%s]. *)
Theorem C7_formatter_stores_past_the_buffer
    (MESSAGE_QUEUE_SIZE BUFFER_SIZE : Z) (stamp : Z -> Z -> string) (s : state)
    (p timestamp : Z) (level : esp_log_level_t) :
  exists written,
    generate_log_message MESSAGE_QUEUE_SIZE BUFFER_SIZE stamp p timestamp level "t" 1 "f"
      "%s" [ArgStr (filler (Z.to_nat BUFFER_SIZE))] s =
      Undefined (OutOfBounds written BUFFER_SIZE) s /\
    BUFFER_SIZE < written.
Proof.
  apply (generate_log_message_overflow MESSAGE_QUEUE_SIZE BUFFER_SIZE stamp s p timestamp level
           "t" 1 "f" "%s" [ArgStr (filler (Z.to_nat BUFFER_SIZE))]
           (filler (Z.to_nat BUFFER_SIZE) +:+ EmptyString)).
  - reflexivity.
  - unfold strlen. rewrite length_append, filler_length. lia.
Qed.

(** A sixteen-byte buffer and a sixteen-character message: 25 bytes are
    stored, the header ["t (f:1) "], the message and the terminator. *)
Example formatter_overflow_16 :
  generate_log_message 5 16 (fun _ _ => EmptyString) 100 0 ESP_LOG_INFO "t" 1 "f"
    "%s" [ArgStr "aaaaaaaaaaaaaaaa"] empty_state =
    Undefined (OutOfBounds 25 16) empty_state.
Proof. vm_compute. reflexivity. Qed.

(** ** Further properties of the queue operations *)


(** X2: a pointer the queue accepts comes back from the next
    [receive_from_queue] once everything queued before it has been
    received: after an accepted [send_to_queue p], the call returns the
    front of the queue extended by [p] and leaves the rest, so on an empty
    queue it returns [p] itself. *)
Theorem X2_receive_after_send (MESSAGE_QUEUE_SIZE : Z) (p uninit : Z) (s : state) :
  Z.of_nat (length (queue s)) < MESSAGE_QUEUE_SIZE ->
  exists r s',
    (do _ <- send_to_queue MESSAGE_QUEUE_SIZE p; receive_from_queue uninit) s = Ret r s' /\
    queue s ++ [p] = r :: queue s' /\
    (queue s = [] -> r = p /\ queue s' = []) /\
    heap s' = heap s.
Proof.
  intros Hroom. unfold bind. rewrite send_to_queue_room by exact Hroom.
  destruct (queue s ++ [p]) as [|r rest] eqn:Hq.
  { destruct (queue s); discriminate. }
  eexists; eexists. split.
  - apply (receive_from_queue_item uninit _ r rest). reflexivity.
  - cbn [queue heap record_event with_queue].
    split; [reflexivity|]. split; [|reflexivity].
    intros Hempty. rewrite Hempty in Hq. injection Hq as <- <-. split; reflexivity.
Qed.

Lemma X2_receive_after_send_witness :
  exists r s',
    (do _ <- send_to_queue 5 200 ; receive_from_queue 7) queued_A = Ret r s' /\
    queue queued_A ++ [200] = r :: queue s' /\
    (queue queued_A = [] -> r = 200 /\ queue s' = []) /\
    heap s' = heap queued_A.
Proof.
  apply (X2_receive_after_send 5 200 7 queued_A). vm_compute. reflexivity.
Defined.

(** X3: the queue never holds more than [MESSAGE_QUEUE_SIZE] pointers: in
    every state of a run its length is at most the capacity (and it stays
    empty when the capacity is not positive). *)
Theorem X3_queue_stays_within_capacity
    (MESSAGE_QUEUE_SIZE BUFFER_SIZE : Z) (transport_send : list event -> string -> Z)
    (stamp : Z -> Z -> string) (protocol : transport_protocol) (s : state) :
  reachable MESSAGE_QUEUE_SIZE BUFFER_SIZE transport_send stamp protocol s ->
  Z.of_nat (length (queue s)) <= Z.max 0 MESSAGE_QUEUE_SIZE.
Proof.
  intros Hreach.
  induction Hreach as [s Hq|s s' p fmt tag r Hreach IH Hmalloc Hrun
                      |s s' p timestamp level TAG line func fmt args Hreach IH Hmalloc Hrun
                      |s s' uninit Hreach IH Hrun].
  - rewrite Hq. cbn [length]. lia.
  - destruct (system_log_message_route_returns _ _ _ _ _ _ _ _ Hrun) as (text & Hfmt & Hfit & Hp).
    rewrite (system_log_message_route_defined MESSAGE_QUEUE_SIZE BUFFER_SIZE s p fmt tag text
               Hfmt Hfit Hp) in Hrun.
    injection Hrun as _ <-. cbn [queue].
    destruct (Z.of_nat (length (queue s)) <? MESSAGE_QUEUE_SIZE) eqn:Hroom; [|exact IH].
    apply Z.ltb_lt in Hroom. rewrite length_app. cbn [length]. lia.
  - destruct (generate_log_message_returns _ _ _ _ _ _ _ _ _ _ _ _ _ Hrun)
      as (body & Hfmt & Hfit & Hp).
    rewrite (generate_log_message_defined MESSAGE_QUEUE_SIZE BUFFER_SIZE stamp s p timestamp
               level TAG line func fmt args body Hfmt Hfit Hp) in Hrun.
    injection Hrun as <-. cbn [queue].
    destruct (Z.of_nat (length (queue s)) <? MESSAGE_QUEUE_SIZE) eqn:Hroom; [|exact IH].
    apply Z.ltb_lt in Hroom. rewrite length_app. cbn [length]. lia.
  - pose proof (reachable_queue_inv _ _ _ _ _ _ Hreach) as Hinv0.
    destruct (queue s) as [|q rest] eqn:Hq.
    + unfold wifi_logger_iteration, bind in Hrun.
      rewrite (receive_from_queue_empty uninit s Hq) in Hrun. discriminate.
    + destruct (queue_inv_front s q rest Hq Hinv0) as [Hq0 [[b Hb] _]].
      rewrite (wifi_logger_iteration_record transport_send protocol uninit s q rest b Hq Hq0 Hb)
        in Hrun.
      injection Hrun as <-. cbn [queue length] in *. lia.
Qed.

Lemma X3_queue_stays_within_capacity_witness :
  Z.of_nat (length (queue queued_A)) <= Z.max 0 5.
Proof.
  apply (X3_queue_stays_within_capacity 5 16 working_transport (fun _ _ => EmptyString) UDP
           queued_A).
  apply (reach_route 5 16 working_transport (fun _ _ => EmptyString) UDP
           empty_state queued_A 100 "A" [] 1).
  - apply reach_start. reflexivity.
  - right. reflexivity.
  - vm_compute. reflexivity.
Defined.

(** ** Further properties of the producers *)



(** X5: the hook does not check what [malloc] returns: when the
    allocation fails, [vsprintf] stores through [NULL], in the state the
    call started from. *)
Theorem X5_hook_stores_through_null
    (MESSAGE_QUEUE_SIZE BUFFER_SIZE : Z) (s : state)
    (fmt : string) (tag : list arg) (text : string) :
  vformat fmt tag = Some text ->
  system_log_message_route MESSAGE_QUEUE_SIZE BUFFER_SIZE NULL fmt tag s = Undefined NullStore s.
Proof.
  intros Hfmt.
  unfold system_log_message_route, bind at 1, malloc. cbn [Z.eqb NULL].
  unfold bind at 1, vsprintf. rewrite Hfmt. reflexivity.
Qed.

Lemma X5_hook_stores_through_null_witness :
  system_log_message_route 5 16 NULL "x=%d" [ArgInt 42] queued_A = Undefined NullStore queued_A.
Proof.
  apply (X5_hook_stores_through_null 5 16 queued_A "x=%d" [ArgInt 42] "x=42"). reflexivity.
Defined.





(** ** Further properties of the dispatch loop *)



Lemma wifi_logger_add (transport_send : list event -> string -> Z)
    (protocol : transport_protocol) (uninit : Z) (a b : nat) :
  forall s : state,
    wifi_logger transport_send protocol (a + b) uninit s =
    (do _ <- wifi_logger transport_send protocol a uninit;
     wifi_logger transport_send protocol b uninit) s.
Proof.
  induction a as [|a IH]; intros s; [reflexivity|].
  cbn [Nat.add wifi_logger]. unfold bind.
  destruct (wifi_logger_iteration transport_send protocol uninit s) as [[] s1|s1|f s1];
    [|reflexivity|reflexivity].
  rewrite IH. reflexivity.
Qed.

(** A loop that runs for more iterations than the queue has records sends
    and releases them all, then aborts on the empty queue. *)
Lemma wifi_logger_runs_dry (transport_send : list event -> string -> Z)
    (protocol : transport_protocol) (n : nat) (uninit : Z) (s : state) :
  queue_inv s -> (length (queue s) < n)%nat ->
  exists s',
    wifi_logger transport_send protocol n uninit s = Abort s' /\
    queue s' = [] /\
    sends_of (trace s') = sends_of (trace s) ++ map (text_of (heap s)) (queue s) /\
    frees_of (trace s') = frees_of (trace s) ++ queue s.
Proof.
  intros Hinv Hlen.
  destruct (wifi_logger_drains transport_send protocol (length (queue s)) uninit s Hinv)
    as (s1 & Hrun & Hqueue & _ & Hsends & Hfrees & _); [reflexivity|].
  rewrite take_ge in Hsends, Hfrees by reflexivity. rewrite drop_all in Hqueue.
  replace n with (length (queue s) + S (n - S (length (queue s))))%nat by lia.
  rewrite wifi_logger_add. unfold bind at 1. rewrite Hrun.
  exists s1. cbn [wifi_logger]. unfold bind, wifi_logger_iteration, bind.
  rewrite (receive_from_queue_empty uninit s1 Hqueue).
  repeat split; assumption.
Qed.

(** X9: the loop does not outlive its queue.  Run for more iterations
    than there are queued records, it first sends and releases every one
    of them, in order, and then is aborted by the assertion on the empty
    queue. *)
Theorem X9_loop_aborts_once_the_queue_is_drained
    (transport_send : list event -> string -> Z) (protocol : transport_protocol)
    (n : nat) (uninit : Z) (s : state) :
  queue_inv s -> (length (queue s) < n)%nat ->
  exists s',
    wifi_logger transport_send protocol n uninit s = Abort s' /\
    queue s' = [] /\
    sends_of (trace s') = sends_of (trace s) ++ map (text_of (heap s)) (queue s) /\
    frees_of (trace s') = frees_of (trace s) ++ queue s.
Proof. apply wifi_logger_runs_dry. Qed.

Lemma X9_loop_aborts_once_the_queue_is_drained_witness :
  exists s',
    wifi_logger working_transport TCP 3 7 queued_A = Abort s' /\
    queue s' = [] /\
    sends_of (trace s') = sends_of (trace queued_A) ++ map (text_of (heap queued_A)) (queue queued_A) /\
    frees_of (trace s') = frees_of (trace queued_A) ++ queue queued_A.
Proof.
  apply (X9_loop_aborts_once_the_queue_is_drained working_transport TCP 3 7 queued_A).
  - refine (bool_decide_unpack _ _). vm_compute. exact I.
  - vm_compute. lia.
Defined.

(** X10: the loop releases what it dequeues and nothing else, and it
    never writes to the console: after [n] iterations the first [n] queued
    blocks are gone from the heap and every other address holds what it
    held before. *)
Theorem X10_loop_touches_only_dequeued_blocks
    (transport_send : list event -> string -> Z) (protocol : transport_protocol)
    (n : nat) (uninit : Z) (s : state) :
  queue_inv s -> (n <= length (queue s))%nat ->
  exists s',
    wifi_logger transport_send protocol n uninit s = Ret tt s' /\
    (forall q, q ∈ take n (queue s) -> heap s' !! q = None) /\
    (forall q, q ∉ take n (queue s) -> heap s' !! q = heap s !! q) /\
    console_of (trace s') = console_of (trace s).
Proof.
  intros Hinv Hlen.
  destruct (wifi_logger_drains transport_send protocol n uninit s Hinv Hlen)
    as (s' & Hrun & _ & _ & _ & _ & Hcons & Hheap).
  exists s'. split; [exact Hrun|]. split; [|split; [|exact Hcons]].
  - intros q Hin. rewrite Hheap. rewrite decide_True by exact Hin. reflexivity.
  - intros q Hnin. rewrite Hheap. rewrite decide_False by exact Hnin. reflexivity.
Qed.

Lemma X10_loop_touches_only_dequeued_blocks_witness :
  exists s',
    wifi_logger failing_transport UDP 1 7 one_slot_full = Ret tt s' /\
    (forall q, q ∈ take 1 (queue one_slot_full) -> heap s' !! q = None) /\
    (forall q, q ∉ take 1 (queue one_slot_full) -> heap s' !! q = heap one_slot_full !! q) /\
    console_of (trace s') = console_of (trace one_slot_full).
Proof.
  apply (X10_loop_touches_only_dequeued_blocks failing_transport UDP 1 7 one_slot_full).
  - refine (bool_decide_unpack _ _). vm_compute. exact I.
  - vm_compute. lia.
Defined.

(** X11: along a run the loop has no undefined behaviour: from every
    reachable state, any number of iterations either returns or ends in
    the abort of the assertion; it never reads or releases an address that
    is not a live block. *)
Theorem X11_loop_is_memory_safe_along_a_run
    (MESSAGE_QUEUE_SIZE BUFFER_SIZE : Z) (transport_send : list event -> string -> Z)
    (stamp : Z -> Z -> string) (protocol : transport_protocol)
    (n : nat) (uninit : Z) (s : state) :
  reachable MESSAGE_QUEUE_SIZE BUFFER_SIZE transport_send stamp protocol s ->
  well_defined (wifi_logger transport_send protocol n uninit s).
Proof.
  intros Hreach. apply reachable_queue_inv in Hreach.
  destruct (le_lt_dec n (length (queue s))) as [Hle|Hlt].
  - destruct (wifi_logger_drains transport_send protocol n uninit s Hreach Hle)
      as (s1 & Hrun & _). rewrite Hrun. exact I.
  - destruct (wifi_logger_runs_dry transport_send protocol n uninit s Hreach Hlt)
      as (s1 & Hrun & _). rewrite Hrun. exact I.
Qed.

Lemma X11_loop_is_memory_safe_along_a_run_witness :
  well_defined (wifi_logger working_transport UDP 4 7 queued_A).
Proof.
  apply (X11_loop_is_memory_safe_along_a_run 5 16 working_transport
           (fun _ _ => EmptyString) UDP 4 7 queued_A).
  apply (reach_route 5 16 working_transport (fun _ _ => EmptyString) UDP
           empty_state queued_A 100 "A" [] 1).
  - apply reach_start. reflexivity.
  - right. reflexivity.
  - vm_compute. reflexivity.
Defined.

(** ** Start-up *)



(** ** Producer and dispatch loop together *)



(** X14: what the formatter queues is what the transport gets.  On an
    empty queue with at least one slot, a call of the formatter with
    defined behaviour followed by one iteration of the loop hands the
    transport the record, stamp, header and expanded message, and releases
    it: the heap is again what it was and the queue is empty; the
    formatter itself wrote nothing to the console. *)
Theorem X14_formatter_then_loop_round_trip
    (MESSAGE_QUEUE_SIZE BUFFER_SIZE : Z) (transport_send : list event -> string -> Z)
    (stamp : Z -> Z -> string) (protocol : transport_protocol) (uninit : Z) (s : state)
    (p timestamp : Z) (level : esp_log_level_t) (TAG : string) (line : Z)
    (func fmt : string) (args : list arg) (body : string) :
  queue s = [] -> 0 < MESSAGE_QUEUE_SIZE ->
  vformat fmt args = Some body ->
  strlen (log_header TAG func line) + strlen body + 1 <= BUFFER_SIZE ->
  p <> NULL -> heap s !! p = None ->
  exists s',
    (do _ <- generate_log_message MESSAGE_QUEUE_SIZE BUFFER_SIZE stamp p timestamp level
               TAG line func fmt args;
     wifi_logger_iteration transport_send protocol uninit) s = Ret tt s' /\
    sends_of (trace s') =
      sends_of (trace s) ++
      [stamp (log_level_opt level) timestamp +:+ (log_header TAG func line +:+ body)] /\
    console_of (trace s') = console_of (trace s) /\
    frees_of (trace s') = frees_of (trace s) ++ [p] /\
    heap s' = heap s /\
    queue s' = [].
Proof.
  intros Hq Hcap Hfmt Hfit Hp Hfresh.
  unfold bind.
  rewrite (generate_log_message_defined MESSAGE_QUEUE_SIZE BUFFER_SIZE stamp s p timestamp
             level TAG line func fmt args body Hfmt Hfit Hp).
  assert ((Z.of_nat (length (queue s)) <? MESSAGE_QUEUE_SIZE) = true) as ->
    by (rewrite Hq; apply Z.ltb_lt; exact Hcap).
  rewrite Hq. cbn [app].
  eexists. split.
  - apply (wifi_logger_iteration_record transport_send protocol uninit _ p []
             (Block
                (strlen (stamp (log_level_opt level) timestamp +:+
                         (log_header TAG func line +:+ body)) + 1)
                (stamp (log_level_opt level) timestamp +:+
                 (log_header TAG func line +:+ body))));
      [reflexivity|exact Hp|apply lookup_insert_eq].
  - cbn [heap queue trace blk_text].
    rewrite !sends_of_app, !console_of_app, !frees_of_app.
    cbn [sends_of console_of frees_of]. rewrite !app_nil_r.
    repeat split; try reflexivity.
    apply delete_insert_id. exact Hfresh.
Qed.

Lemma X14_formatter_then_loop_round_trip_witness :
  exists s',
    (do _ <- generate_log_message 5 64 (fun rank t => dec t +:+ " " +:+ dec rank +:+ " ")
               400 1234 ESP_LOG_DEBUG "app" 42 "main" "x=%d" [ArgInt 3];
     wifi_logger_iteration working_transport UDP 7) abc_heap = Ret tt s' /\
    sends_of (trace s') = sends_of (trace abc_heap) ++ ["1234 3 app (main:42) x=3"] /\
    console_of (trace s') = console_of (trace abc_heap) /\
    frees_of (trace s') = frees_of (trace abc_heap) ++ [400] /\
    heap s' = heap abc_heap /\
    queue s' = [].
Proof.
  apply (X14_formatter_then_loop_round_trip 5 64 working_transport
           (fun rank t => dec t +:+ " " +:+ dec rank +:+ " ") UDP 7 abc_heap
           400 1234 ESP_LOG_DEBUG "app" 42 "main" "x=%d" [ArgInt 3] "x=3").
  - reflexivity.
  - reflexivity.
  - reflexivity.
  - vm_compute. discriminate.
  - discriminate.
  - reflexivity.
Defined.
